(** * MinNE (Project1-MinNE-python): application and network layers

    A shallow embedding of [layer/app.py] (class [AppLayer]) and
    [layer/net.py] (class [NetLayer]).

    Python [str] values are [String.string]; a character is one [ascii].
    Values whose Python type is not fixed by the source (the argument of
    [receive_from_user], the loop variable [port]) are [value]s.  A call
    either returns, raises, or waits for ever on a socket; that is its
    [outcome].  Console and socket are explicit states threaded through
    the calls. *)

From Stdlib Require Import Strings.String Strings.Ascii Strings.Byte.
From Stdlib Require Import List ZArith Bool Arith Lia.
Import ListNotations.
Open Scope string_scope.

Set Implicit Arguments.

(* ================================================================== *)
(** ** Python values, exceptions and outcomes *)

Inductive value : Type :=
| VNone
| VInt (z : Z)
| VStr (s : string).

(** Python's [==] on the values above. *)
Definition py_eq (a b : value) : bool :=
  match a, b with
  | VNone, VNone => true
  | VInt x, VInt y => Z.eqb x y
  | VStr x, VStr y => String.eqb x y
  | _, _ => false
  end.

Inductive exn : Type :=
| EOFError            (* input() at the end of the console *)
| UnboundLocalError   (* a local read before any assignment *)
| UnicodeError        (* text outside the encoding, or bits that decode to none *)
| TransportError      (* the medium rejects a payload *)
| ConfigNotFoundError (* unknown device identifier *).

Inductive outcome (A : Type) : Type :=
| Returned (a : A)
| Raised (e : exn)
| Blocked.

Arguments Raised {A} e.
Arguments Blocked {A}.

(** A computation over a state [S]: the outcome and the state it leaves. *)
Definition M (S A : Type) : Type := S -> outcome A * S.

Definition ret {S A} (a : A) : M S A := fun s => (Returned a, s).

Definition raise {S A} (e : exn) : M S A := fun s => (Raised e, s).

Definition bind {S A B} (m : M S A) (k : A -> M S B) : M S B :=
  fun s =>
    match m s with
    | (Returned a, s') => k a s'
    | (Raised e, s') => (Raised e, s')
    | (Blocked, s') => (Blocked, s')
    end.

Notation "x <- m ;; k" := (bind m (fun x => k))
  (at level 61, m at next level, right associativity).
Notation "' pat <- m ;; k" := (bind m (fun x => match x with pat => k end))
  (at level 61, pat pattern, m at next level, right associativity).
Notation "m ;; k" := (bind m (fun _ => k))
  (at level 61, right associativity).

(* ================================================================== *)
(** ** utils.coding: text and bit sequences *)

(** The byte-level text encoding: [encode] gives the bytes of a text it can
    represent, [decode] reads bytes back. *)
Record codec : Type := Codec {
  encode : string -> option (list byte);
  decode : list byte -> option string
}.

(** Decoding undoes encoding on every representable text. *)
Definition codec_sound (E : codec) : Prop :=
  forall s bs, encode E s = Some bs -> decode E bs = Some s.

Definition bit_char (b : bool) : ascii :=
  if b then "1"%char else "0"%char.

Definition char_bit (c : ascii) : option bool :=
  if Ascii.eqb c "0" then Some false
  else if Ascii.eqb c "1" then Some true
  else None.

(** A character of a bit sequence. *)
Definition is_bit (c : ascii) : Prop := c = "0"%char \/ c = "1"%char.

(** One byte as eight characters, most significant bit first. *)
Definition byte_to_bits (b : byte) : string :=
  let '(b0, (b1, (b2, (b3, (b4, (b5, (b6, b7))))))) := Byte.to_bits b in
  String (bit_char b7) (String (bit_char b6) (String (bit_char b5)
  (String (bit_char b4) (String (bit_char b3) (String (bit_char b2)
  (String (bit_char b1) (String (bit_char b0) EmptyString))))))).

Fixpoint bytes_to_bits (bs : list byte) : string :=
  match bs with
  | [] => EmptyString
  | b :: bs' => byte_to_bits b ++ bytes_to_bits bs'
  end.

Definition bits_to_byte (c7 c6 c5 c4 c3 c2 c1 c0 : ascii) : option byte :=
  match char_bit c7, char_bit c6, char_bit c5, char_bit c4,
        char_bit c3, char_bit c2, char_bit c1, char_bit c0 with
  | Some b7, Some b6, Some b5, Some b4, Some b3, Some b2, Some b1, Some b0 =>
      Some (Byte.of_bits (b0, (b1, (b2, (b3, (b4, (b5, (b6, b7))))))))
  | _, _, _, _, _, _, _, _ => None
  end.

(** Groups of eight characters back to bytes; [None] when the length is not
    a multiple of eight or a character is neither [0] nor [1]. *)
Fixpoint bits_to_bytes (s : string) : option (list byte) :=
  match s with
  | EmptyString => Some []
  | String c7 (String c6 (String c5 (String c4
      (String c3 (String c2 (String c1 (String c0 rest))))))) =>
      match bits_to_byte c7 c6 c5 c4 c3 c2 c1 c0, bits_to_bytes rest with
      | Some b, Some bs => Some (b :: bs)
      | _, _ => None
      end
  | _ => None
  end.

(** Modelled from the spec: [utils.coding] is not among the sources.
    [string_to_bits] is the spec's textToBits: the characters [0]/[1] of the
    bit pattern of the text's byte-level encoding, most significant bit first
    within each byte, bytes in original order.  A text the encoding cannot
    represent has no bit sequence ([None]). *)
Definition string_to_bits (E : codec) (s : string) : option string :=
  match encode E s with
  | Some bs => Some (bytes_to_bits bs)
  | None => None
  end.

(** Modelled from the spec: [bits_to_string] is the spec's bitsToText, the
    exact inverse of [string_to_bits]. *)
Definition bits_to_string (E : codec) (bits : string) : option string :=
  match bits_to_bytes bits with
  | Some bs => decode E bs
  | None => None
  end.

(** The 7-bit ASCII encoding: one byte per character, characters from 128 on
    are not representable. *)
Definition is_7bit (c : ascii) : bool := Nat.ltb (nat_of_ascii c) 128.

Definition ascii_encode (s : string) : option (list byte) :=
  if forallb is_7bit (list_ascii_of_string s)
  then Some (map byte_of_ascii (list_ascii_of_string s))
  else None.

Definition ascii_decode (bs : list byte) : option string :=
  if forallb is_7bit (map ascii_of_byte bs)
  then Some (string_of_list_ascii (map ascii_of_byte bs))
  else None.

Definition ascii_codec : codec := Codec ascii_encode ascii_decode.

(* ================================================================== *)
(** ** utils.constant *)

(** Modelled from the spec: [utils.constant] is not among the sources.  Its
    values are the process-wide constants of the spec (receive buffer size,
    default receive timeout, inter-send pacing interval), the four mode
    codes, the two message-kind codes and the five input categories; none of
    the values is fixed here.  Durations are whole ticks of the clock. *)
Record constants : Type := Constants {
  Network_IN_NE_BUFSIZE : nat;
  Network_FLOW_INTERVAL : Z;
  Network_RECV_TIMEOUT : Z;
  Mode_RECEIVE : string;
  Mode_UNICAST : string;
  Mode_BROADCAST : string;
  Mode_QUIT : string;
  MessageType_TEXT : string;
  MessageType_FILE : string;
  InputType_MODE : value;
  InputType_DST : value;
  InputType_MSGTYPE : value;
  InputType_TEXT : value;
  InputType_FILE : value
}.

Definition Mode_LIST (K : constants) : list string :=
  [Mode_RECEIVE K; Mode_UNICAST K; Mode_BROADCAST K; Mode_QUIT K].

Definition MessageType_LIST (K : constants) : list string :=
  [MessageType_TEXT K; MessageType_FILE K].

(** [x in xs] on a list of strings. *)
Definition str_in (x : string) (xs : list string) : bool :=
  existsb (String.eqb x) xs.

(** The codes shown by the two menus of [app.py], with sample values for the
    rest. *)
Definition menu_constants : constants :=
  {| Network_IN_NE_BUFSIZE := 1024;
     Network_FLOW_INTERVAL := 1;
     Network_RECV_TIMEOUT := 3;
     Mode_RECEIVE := "1"; Mode_UNICAST := "2";
     Mode_BROADCAST := "3"; Mode_QUIT := "4";
     MessageType_TEXT := "1"; MessageType_FILE := "2";
     InputType_MODE := VStr "mode"; InputType_DST := VStr "dst";
     InputType_MSGTYPE := VStr "msgtype"; InputType_TEXT := VStr "text";
     InputType_FILE := VStr "file" |}.

(* ================================================================== *)
(** ** utils.io: device map *)

Record device_config : Type := DeviceConfig {
  config_app : string;
  config_net : string;
  config_phy : string
}.

(** [re.fullmatch(r"[1-9]", s)]: the whole of [s] is one character between
    [1] and [9]. *)
Definition fullmatch_1_9 (s : string) : bool :=
  match s with
  | String c EmptyString =>
      Nat.leb (nat_of_ascii "1") (nat_of_ascii c) &&
      Nat.leb (nat_of_ascii c) (nat_of_ascii "9")
  | _ => false
  end.

(** The net and phy address of each device, which only the table gives. *)
Record device_table : Type := DeviceTable {
  net_address : string -> string;
  phy_address : string -> string
}.

(** Modelled from the spec: [utils.io.get_device_map] and its table are not
    among the sources.  It is the spec's resolveDeviceConfig: a pure lookup
    from a device identifier (a single digit 1-9) to the app, net and phy
    addresses of that device, failing with ConfigNotFoundError on an unknown
    identifier; the app address of device d is the one the spec's addressing
    consistency gives, [1] d [300]. *)
Definition get_device_map (T : device_table) (device_id : string)
  : outcome device_config :=
  if fullmatch_1_9 device_id
  then Returned {| config_app := "1" ++ device_id ++ "300";
                   config_net := net_address T device_id;
                   config_phy := phy_address T device_id |}
  else Raised ConfigNotFoundError.

Definition sample_table : device_table :=
  {| net_address := fun d => "1" ++ d ++ "200";
     phy_address := fun d => "1" ++ d ++ "100" |}.

(* ================================================================== *)
(** ** The console *)

Record console : Type := Console {
  stdin : list string;   (* the lines the user will type *)
  stdout : list string   (* what has been written, oldest first *)
}.

Definition print (text : string) : M console unit :=
  fun c => (Returned tt, {| stdin := stdin c; stdout := (stdout c ++ [text])%list |}).

Fixpoint prints (texts : list string) : M console unit :=
  match texts with
  | [] => ret tt
  | text :: texts' => print text ;; prints texts'
  end.

(** [input(prompt)]: writes the prompt and reads one line; at the end of the
    input it raises EOFError. *)
Definition input (prompt : string) : M console string :=
  fun c =>
    match stdin c with
    | [] => (Raised EOFError, {| stdin := []; stdout := (stdout c ++ [prompt])%list |})
    | line :: lines =>
        (Returned line, {| stdin := lines; stdout := (stdout c ++ [prompt])%list |})
    end.

(** [while True: x = input(">>> "); body].  The body of an iteration prints
    some lines and then either returns a value ([Some]) or starts the next
    iteration ([None]). *)
Fixpoint input_loop {A} (body : string -> list string * option A)
    (lines out : list string) : outcome A * console :=
  match lines with
  | [] => (Raised EOFError, {| stdin := []; stdout := (out ++ [">>> "])%list |})
  | line :: lines' =>
      let out' := (out ++ ">>> " :: fst (body line))%list in
      match snd (body line) with
      | Some a => (Returned a, {| stdin := lines'; stdout := out' |})
      | None => input_loop body lines' out'
      end
  end.

Definition while_True_input {A} (body : string -> list string * option A)
  : M console A :=
  fun c => input_loop body (stdin c) (stdout c).

Definition newline : string := String (ascii_of_nat 10) EmptyString.

Fixpoint str_repeat (s : string) (n : nat) : string :=
  match n with
  | O => EmptyString
  | S n' => s ++ str_repeat s n'
  end.

(** [s.center(width)] with the default fill character. *)
Definition center (s : string) (width : nat) : string :=
  let len := String.length s in
  if Nat.leb width len then s
  else
    let marg := width - len in
    let left := Nat.div marg 2 + Nat.land (Nat.land marg width) 1 in
    str_repeat " " left ++ s ++ str_repeat " " (marg - left).

(** A line after which the prompt loop asks again. *)
Definition retried {A} (body : string -> list string * option A)
    (line : string) : Prop :=
  snd (body line) = None.

(** What a validator [run] does on every console, for the lines it
    [accepts] and the values that are [valid]: a value it returns is valid,
    and the input read up to there is lines it does not accept followed by
    one it accepts; it raises nothing but EOFError, and that only when no
    line of the input is acceptable; it does not block. *)
Definition validates {A} (run : M console A) (accepts : string -> Prop)
    (valid : A -> Prop) : Prop :=
  forall c,
    match run c with
    | (Returned a, c') =>
        valid a /\
        exists pre line,
          stdin c = (pre ++ line :: stdin c')%list /\
          Forall (fun l => ~ accepts l) pre /\ accepts line
    | (Raised e, _) => e = EOFError /\ Forall (fun l => ~ accepts l) (stdin c)
    | (Blocked, _) => False
    end.

(** The device identifiers. *)
Definition device_ids : list string :=
  ["1"; "2"; "3"; "4"; "5"; "6"; "7"; "8"; "9"].

(** A resource lookup that knows one file. *)
Definition sample_search_rsc (filename : string) : option string :=
  if String.eqb filename "foo.png" then Some "/rsc/foo.png" else None.

(* ================================================================== *)
(** ** layer/_abstract.py: the transport endpoint *)

Record datagram : Type := Datagram {
  payload : string;
  sender : string;    (* the address it was sent from *)
  arrival : Z         (* when it reaches the endpoint *)
}.

Inductive event : Type :=
| Slept (duration : Z)
| Sent (message : string) (destination : string).

Record socket : Type := Socket {
  inbox : list datagram;   (* what will reach the endpoint, in order of arrival *)
  now : Z;                 (* the clock *)
  log : list event;        (* what the layer did, oldest first *)
  limit : nat;             (* the longest payload the medium takes *)
  idle : string * string   (* payload and sender reported by a receive that timed out *)
}.

(** [time.sleep]. *)
Definition sleep (secs : Z) : M socket unit :=
  fun s => (Returned tt,
            {| inbox := inbox s; now := (now s + secs)%Z;
               log := (log s ++ [Slept secs])%list;
               limit := limit s; idle := idle s |}).

(** Modelled from the spec: [AbstractLayer._send] is not among the sources.
    It is the spec's send: transmits the payload to the given address and
    returns the number of bytes sent; fails with TransportError, sending
    nothing, if the medium rejects the payload as oversized. *)
Definition _send (message : string) (port : string) : M socket nat :=
  fun s =>
    if Nat.leb (String.length message) (limit s)
    then (Returned (String.length message),
          {| inbox := inbox s; now := now s;
             log := (log s ++ [Sent message port])%list;
             limit := limit s; idle := idle s |})
    else (Raised TransportError, s).

(** The endpoint once datagram [d] has been taken from the head of the inbox. *)
Definition deliver (d : datagram) (rest : list datagram) (s : socket) : socket :=
  {| inbox := rest; now := Z.max (now s) (arrival d);
     log := log s; limit := limit s; idle := idle s |}.

(** The endpoint once a receive has waited [t] in vain. *)
Definition timed_out (t : Z) (s : socket) : socket :=
  {| inbox := inbox s; now := (now s + t)%Z;
     log := log s; limit := limit s; idle := idle s |}.

(** An unspecified or zero timeout asks for an indefinite wait. *)
Definition bounded (timeout : option Z) : option Z :=
  match timeout with
  | Some t => if (t =? 0)%Z then None else Some t
  | None => None
  end.

(** Modelled from the spec: [AbstractLayer._receive] is not among the
    sources.  It is the spec's receive: blocks until a datagram arrives or
    the timeout elapses, and reports payload, sender address and success; on
    timeout success is false and the payload is unspecified (here [idle]);
    with the timeout unspecified or zero the wait is indefinite. *)
Definition _receive (bufsize : option nat) (timeout : option Z)
  : M socket (string * string * bool) :=
  fun s =>
    match bounded timeout, inbox s with
    | None, [] => (Blocked, s)
    | None, d :: rest => (Returned (payload d, sender d, true), deliver d rest s)
    | Some t, [] => (Returned (fst (idle s), snd (idle s), false), timed_out t s)
    | Some t, d :: rest =>
        if (arrival d <=? now s + t)%Z
        then (Returned (payload d, sender d, true), deliver d rest s)
        else (Returned (fst (idle s), snd (idle s), false), timed_out t s)
    end.

(** [while port != peer: message, port, _ = self._receive(bufsize=...)]
    followed by [return message], on the datagrams [pending] in the inbox.
    [message] is [None] as long as the local has not been assigned. *)
Fixpoint receive_until (peer : string) (message : option string) (port : value)
    (pending : list datagram) (s : socket) : outcome string * socket :=
  if negb (py_eq port (VStr peer)) then
    match pending with
    | [] => (Blocked, s)
    | d :: rest =>
        receive_until peer (Some (payload d)) (VStr (sender d)) rest
          (deliver d rest s)
    end
  else
    match message with
    | Some m => (Returned m, s)
    | None => (Raised UnboundLocalError, s)
    end.

(* ================================================================== *)
(** ** layer/app.py *)

Module AppLayer.

Record t : Type := Make {
  _device_id : string;
  _port : string;          (* the address the layer is bound to *)
  _net : string            (* the address of the network layer *)
}.

(** [AppLayer.__init__]: looks the device up, binds to its app address and
    records its net address. *)
Definition __init__ (T : device_table) (device_id : string) : outcome t :=
  match get_device_map T device_id with
  | Returned config =>
      Returned {| _device_id := device_id;
                  _port := config_app config;
                  _net := config_net config |}
  | Raised e => Raised e
  | Blocked => Blocked
  end.

Definition mode_banner : string :=
  str_repeat "-" 29 ++ newline ++
  "|" ++ center "Select Mode" 27 ++ "|" ++ newline ++
  "| 1::Receive     2::Unicast |" ++ newline ++
  "| 3::Broadcast   4::Quit    |" ++ newline ++
  str_repeat "-" 29.

Definition _get_mode_from_user (K : constants) : M console string :=
  print mode_banner ;;
  while_True_input (fun mode =>
    if str_in mode (Mode_LIST K) then ([], Some mode)
    else (["[Warning] Invalid mode."], None)).

(** One turn of the loop of [_get_dst_from_user], on the line read. *)
Definition dst_body (self : t) (device_id : string)
  : list string * option string :=
  if negb (fullmatch_1_9 device_id)
  then (["[Warning] ID should be an integer between 1 and 9."], None)
  else if String.eqb device_id (_device_id self)
  then (["[Warning] This is my ID."], None)
  else ([], Some ("1" ++ device_id ++ "300")).

Definition _get_dst_from_user (self : t) : M console string :=
  print "Input destination device ID:" ;;
  while_True_input (dst_body self).

Definition _get_msgtype_from_user (K : constants) : M console string :=
  print ("Input message type:" ++ newline ++ "1::Text  2::File") ;;
  while_True_input (fun msgtype =>
    if str_in msgtype (MessageType_LIST K) then ([], Some msgtype)
    else (["[Warning] Invalid message type!"], None)).

Definition _get_text_from_user : M console string :=
  print "Input a piece of message:" ;;
  while_True_input (fun message =>
    if negb (String.eqb message EmptyString) then ([], Some message)
    else ([], None)).

(** [search_rsc] (from [utils.io], not among the sources) is the resource
    lookup: the absolute path of a file name, or [None].  The warning is
    formatted from [filepath], which is [None] where it is printed. *)
Definition _get_file_from_user (search_rsc : string -> option string)
  : M console string :=
  print "Input file name: (i.e. foo.png)" ;;
  while_True_input (fun filename =>
    match search_rsc filename with
    | Some filepath => ([], Some filepath)
    | None => (["[Warning] None not found."], None)
    end).

Definition receive_from_user (K : constants)
    (search_rsc : string -> option string) (self : t) (input_type : value)
  : M console string :=
  if py_eq input_type (InputType_MODE K) then _get_mode_from_user K
  else if py_eq input_type (InputType_DST K) then _get_dst_from_user self
  else if py_eq input_type (InputType_MSGTYPE K) then _get_msgtype_from_user K
  else if py_eq input_type (InputType_TEXT K) then _get_text_from_user
  else if py_eq input_type (InputType_FILE K) then _get_file_from_user search_rsc
  else ret EmptyString.

(** A line that is not a device identifier, or is the local one. *)
Definition dst_rejected (self : t) (line : string) : Prop :=
  ~ In line device_ids \/ line = _device_id self.

Definition receive_from_net (self : t) : M socket string :=
  fun s => receive_until (_net self) None VNone (inbox s) s.

Definition send_to_net (self : t) (message : string) : M socket nat :=
  _send message (_net self).

End AppLayer.

(* ================================================================== *)
(** ** layer/net.py *)

Module NetLayer.

Record t : Type := Make {
  _port : string;   (* the address the layer is bound to *)
  app : string;     (* the address of the application layer *)
  phy : string      (* the address of the physical layer *)
}.

Definition send_to_app (self : t) (message : string) : M socket nat :=
  _send message (app self).

Definition receive_from_app (self : t) : M socket string :=
  fun s => receive_until (app self) None (VStr "-1") (inbox s) s.

Definition send_to_phy (K : constants) (E : codec) (self : t) (binary : string)
  : M socket nat :=
  sleep (Network_FLOW_INTERVAL K) ;;
  match string_to_bits E binary with
  | Some bits => _send bits (phy self)
  | None => raise UnicodeError
  end.

(** [timeout] is [None] when the caller leaves the argument out. *)
Definition receive_from_phy (K : constants) (E : codec) (self : t)
    (timeout : option Z) : M socket (string * bool) :=
  let timeout :=
    match timeout with
    | Some t => t
    | None => Network_RECV_TIMEOUT K
    end in
  ' (binary, _, success) <- _receive None (Some timeout) ;;
  if success : bool then
    match bits_to_string E binary with
    | Some text => ret (text, true)
    | None => raise UnicodeError
    end
  else ret (binary, false).

End NetLayer.

(* ================================================================== *)
(** ** Sample layers and sockets *)

(** The network layer of device 1 under [sample_table]. *)
Definition sample_net : NetLayer.t :=
  {| NetLayer._port := "11200"; NetLayer.app := "11300"; NetLayer.phy := "11100" |}.

(** A fresh socket at time 0 that [pending] will reach. *)
Definition sample_socket (pending : list datagram) : socket :=
  {| inbox := pending; now := 0; log := []; limit := 1024;
     idle := (EmptyString, "-1") |}.

(** A socket whose one datagram, from the physical layer, arrives at time 9. *)
Definition late_socket : socket :=
  sample_socket [Datagram "01100001" "11100" 9].

(** A socket whose one datagram arrives at time 1 and comes from the
    application layer, not from the physical layer. *)
Definition foreign_socket : socket :=
  sample_socket [Datagram "01100001" "11300" 1].

(** A socket that a datagram from a foreign address reaches before two from
    the application layer. *)
Definition mixed_socket : socket :=
  sample_socket [Datagram "x" "19999" 2; Datagram "y" "11300" 3;
                 Datagram "z" "11300" 4].

(* ================================================================== *)
(** ** Bit sequences: lemmas *)

Lemma char_bit_bit_char (b : bool) : char_bit (bit_char b) = Some b.
Proof. destruct b; reflexivity. Qed.

Lemma bit_char_01 (b : bool) : bit_char b = "0"%char \/ bit_char b = "1"%char.
Proof. destruct b; [right | left]; reflexivity. Qed.

Lemma bits_to_bytes_app (b : byte) (rest : string) :
  bits_to_bytes (byte_to_bits b ++ rest) =
  option_map (cons b) (bits_to_bytes rest).
Proof.
  unfold byte_to_bits.
  pose proof (Byte.of_bits_to_bits b) as Hb.
  destruct (Byte.to_bits b) as [b0 [b1 [b2 [b3 [b4 [b5 [b6 b7]]]]]]].
  cbn [append bits_to_bytes]. unfold bits_to_byte.
  rewrite !char_bit_bit_char, Hb.
  destruct (bits_to_bytes rest); reflexivity.
Qed.

Lemma bits_to_bytes_to_bits (bs : list byte) :
  bits_to_bytes (bytes_to_bits bs) = Some bs.
Proof.
  induction bs as [|b bs IH]; [reflexivity|].
  cbn [bytes_to_bits]. rewrite bits_to_bytes_app, IH. reflexivity.
Qed.

Lemma byte_to_bits_length (b : byte) : String.length (byte_to_bits b) = 8.
Proof.
  unfold byte_to_bits.
  destruct (Byte.to_bits b) as [b0 [b1 [b2 [b3 [b4 [b5 [b6 b7]]]]]]].
  reflexivity.
Qed.

Lemma string_length_app (s t : string) :
  String.length (s ++ t) = String.length s + String.length t.
Proof. induction s as [|c s IH]; cbn; [reflexivity | now rewrite IH]. Qed.

Lemma bytes_to_bits_length (bs : list byte) :
  String.length (bytes_to_bits bs) = 8 * List.length bs.
Proof.
  induction bs as [|b bs IH]; [reflexivity|].
  cbn [bytes_to_bits List.length].
  rewrite string_length_app, byte_to_bits_length, IH. lia.
Qed.

Lemma list_ascii_app (s t : string) :
  list_ascii_of_string (s ++ t) = (list_ascii_of_string s ++ list_ascii_of_string t)%list.
Proof. induction s as [|c s IH]; cbn; [reflexivity | now rewrite IH]. Qed.

Lemma byte_to_bits_01 (b : byte) :
  Forall is_bit (list_ascii_of_string (byte_to_bits b)).
Proof.
  unfold byte_to_bits.
  destruct (Byte.to_bits b) as [b0 [b1 [b2 [b3 [b4 [b5 [b6 b7]]]]]]].
  cbn. repeat (apply Forall_cons; [apply bit_char_01|]). constructor.
Qed.

Lemma bytes_to_bits_01 (bs : list byte) :
  Forall is_bit (list_ascii_of_string (bytes_to_bits bs)).
Proof.
  induction bs as [|b bs IH]; [constructor|].
  cbn [bytes_to_bits]. rewrite list_ascii_app.
  apply Forall_app; split; [apply byte_to_bits_01 | exact IH].
Qed.

(** C1: for every text [s] the encoding represents (as bytes [bs]),
    [string_to_bits] yields a bit sequence that [bits_to_string] converts
    back to [s]; that sequence is exactly 8 times as long as [bs] and each
    of its characters is [0] or [1]. *)
Theorem C1_bits_round_trip (E : codec) (s : string) (bs : list byte) :
  codec_sound E ->
  encode E s = Some bs ->
  exists bits,
    string_to_bits E s = Some bits /\
    bits_to_string E bits = Some s /\
    String.length bits = 8 * List.length bs /\
    Forall is_bit (list_ascii_of_string bits).
Proof.
  intros Hsound Henc. exists (bytes_to_bits bs).
  unfold string_to_bits, bits_to_string. rewrite Henc, bits_to_bytes_to_bits.
  repeat split.
  - apply Hsound, Henc.
  - apply bytes_to_bits_length.
  - apply bytes_to_bits_01.
Qed.

Lemma ascii_codec_sound : codec_sound ascii_codec.
Proof.
  intros s bs. cbn. unfold ascii_encode, ascii_decode.
  destruct (forallb is_7bit (list_ascii_of_string s)) eqn:H7; [|discriminate].
  intros [= <-].
  rewrite map_map, (map_ext _ (fun c => c)), map_id by apply ascii_of_byte_of_ascii.
  rewrite H7, string_of_list_ascii_of_string. reflexivity.
Qed.

(** C1 at the text [hi] in 7-bit ASCII. *)
Lemma C1_bits_round_trip_witness :
  exists bits,
    string_to_bits ascii_codec "hi" = Some bits /\
    bits_to_string ascii_codec bits = Some "hi" /\
    String.length bits = 8 * 2 /\
    Forall is_bit (list_ascii_of_string bits).
Proof.
  apply (@C1_bits_round_trip ascii_codec "hi" ["h"%byte; "i"%byte]).
  - exact ascii_codec_sound.
  - reflexivity.
Defined.

(* ================================================================== *)
(** ** Python equality *)

Lemma py_eq_true (a b : value) : py_eq a b = true <-> a = b.
Proof.
  destruct a, b; cbn; split; try discriminate; try reflexivity; intros H.
  - apply Z.eqb_eq in H. now subst.
  - injection H as ->. apply Z.eqb_refl.
  - apply String.eqb_eq in H. now subst.
  - injection H as ->. apply String.eqb_refl.
Qed.

Lemma py_eq_false (a b : value) : py_eq a b = false <-> a <> b.
Proof.
  rewrite <- py_eq_true. destruct (py_eq a b); split; congruence.
Qed.

Lemma str_in_true (x : string) (xs : list string) : str_in x xs = true <-> In x xs.
Proof.
  unfold str_in. rewrite existsb_exists. split.
  - intros [y [Hy Heq]]. apply String.eqb_eq in Heq. now subst.
  - intros H. exists x. split; [exact H | apply String.eqb_refl].
Qed.

(* ================================================================== *)
(** ** The prompt loop *)

Section InputLoop.

Variable A : Type.
Variable body : string -> list string * option A.


(** One turn of the loop, through [input] and [print]. *)
Lemma while_True_input_unfold (c : console) :
  while_True_input body c =
  (line <- input ">>> " ;;
   prints (fst (body line)) ;;
   match snd (body line) with
   | Some a => ret a
   | None => while_True_input body
   end) c.
Proof.
  assert (Hprints : forall texts c0,
    prints texts c0 =
    (Returned tt, {| stdin := stdin c0; stdout := (stdout c0 ++ texts)%list |})).
  { induction texts as [|x texts IH]; intros [i o]; cbn.
    - unfold ret. now rewrite app_nil_r.
    - unfold bind, print. cbn. rewrite IH. cbn. now rewrite <- app_assoc. }
  destruct c as [[|line lines] out]; unfold while_True_input, bind, input; cbn;
    [reflexivity|].
  rewrite Hprints. cbn. rewrite <- app_assoc. cbn.
  destruct (snd (body line)); reflexivity.
Qed.

Lemma input_loop_inv (lines out : list string) :
  match input_loop body lines out with
  | (Returned a, c') =>
      exists pre line,
        lines = (pre ++ line :: stdin c')%list /\
        Forall (retried body) pre /\ snd (body line) = Some a
  | (Raised e, c') => e = EOFError /\ Forall (retried body) lines
  | (Blocked, _) => False
  end.
Proof.
  revert out. induction lines as [|line lines IH]; intros out; cbn.
  - split; [reflexivity | constructor].
  - destruct (snd (body line)) as [a|] eqn:Hb.
    + exists [], line. cbn. repeat split; [constructor | exact Hb].
    + specialize (IH (out ++ ">>> " :: fst (body line))%list).
      destruct (input_loop body lines _) as [[a|e|] c'].
      * destruct IH as (pre & l & -> & Hpre & Hl).
        exists (line :: pre), l. cbn. repeat split; [|exact Hl].
        constructor; [exact Hb | exact Hpre].
      * destruct IH as [-> Hall]. split; [reflexivity|].
        constructor; [exact Hb | exact Hall].
      * exact IH.
Qed.

Lemma input_loop_retried (line : string) (lines out : list string) :
  retried body line ->
  input_loop body (line :: lines) out =
  input_loop body lines (out ++ ">>> " :: fst (body line))%list.
Proof. unfold retried. intros H. cbn. now rewrite H. Qed.

Lemma input_loop_accepted (line : string) (a : A) (lines out : list string) :
  snd (body line) = Some a ->
  input_loop body (line :: lines) out =
  (Returned a, {| stdin := lines; stdout := (out ++ ">>> " :: fst (body line))%list |}).
Proof. intros H. cbn. now rewrite H. Qed.

(** What the loop returns and what it leaves of the input do not depend on
    what was written before. *)
Lemma input_loop_out (lines out1 out2 : list string) :
  fst (input_loop body lines out1) = fst (input_loop body lines out2) /\
  stdin (snd (input_loop body lines out1)) = stdin (snd (input_loop body lines out2)).
Proof.
  revert out1 out2. induction lines as [|line lines IH]; intros out1 out2; cbn.
  - split; reflexivity.
  - destruct (snd (body line)); [split; reflexivity | apply IH].
Qed.

End InputLoop.

(** A computation that starts with a [print] and goes on with the loop. *)
Lemma print_then_loop A (text : string) (body : string -> list string * option A)
    (c : console) :
  (print text ;; while_True_input body) c =
  input_loop body (stdin c) (stdout c ++ [text])%list.
Proof. reflexivity. Qed.

(** A validator made of a [print] and a prompt loop validates as its body
    accepts. *)
Lemma validates_loop A (text : string) (body : string -> list string * option A)
    (accepts : string -> Prop) (valid : A -> Prop) :
  (forall line, accepts line <-> snd (body line) <> None) ->
  (forall line a, snd (body line) = Some a -> valid a) ->
  validates (print text ;; while_True_input body) accepts valid.
Proof.
  intros Hacc Hval c. rewrite print_then_loop.
  assert (Hno : forall l, Forall (retried body) l -> Forall (fun x => ~ accepts x) l).
  { intros l. apply Forall_impl. intros x Hx Ha. apply Hacc in Ha. now apply Ha. }
  pose proof (input_loop_inv body (stdin c) (stdout c ++ [text])%list) as H.
  destruct (input_loop body (stdin c) _) as [[a|e|] c'].
  - destruct H as (pre & line & Heq & Hpre & Hline). split.
    + now apply (Hval line).
    + exists pre, line. repeat split; [exact Heq | now apply Hno |].
      apply Hacc. congruence.
  - destruct H as [-> Hall]. split; [reflexivity | now apply Hno].
  - exact H.
Qed.

(** C8: each of the four validators returns only a valid value (one of the
    four mode codes; one of the two message-kind codes; a non-empty text; a
    path that the resource lookup gave), having asked again after every line
    it did not accept; an invalid line never makes it raise: the one
    exception it can end in is the console's EOFError, when the input ends
    before any acceptable line. *)
Theorem C8_validators_only_return_valid (K : constants)
    (search_rsc : string -> option string) :
  validates (AppLayer._get_mode_from_user K)
    (fun line => In line (Mode_LIST K)) (fun v => In v (Mode_LIST K)) /\
  validates (AppLayer._get_msgtype_from_user K)
    (fun line => In line (MessageType_LIST K))
    (fun v => In v (MessageType_LIST K)) /\
  validates AppLayer._get_text_from_user
    (fun line => line <> EmptyString) (fun v => v <> EmptyString) /\
  validates (AppLayer._get_file_from_user search_rsc)
    (fun line => search_rsc line <> None)
    (fun v => exists filename, search_rsc filename = Some v).
Proof.
  repeat split; apply validates_loop.
  - intros line. rewrite <- str_in_true.
    destruct (str_in line (Mode_LIST K)); cbn; split; congruence.
  - intros line a. destruct (str_in line (Mode_LIST K)) eqn:H; cbn [snd]; [|discriminate].
    intros [= <-]. now apply str_in_true.
  - intros line. rewrite <- str_in_true.
    destruct (str_in line (MessageType_LIST K)); cbn; split; congruence.
  - intros line a.
    destruct (str_in line (MessageType_LIST K)) eqn:H; cbn [snd]; [|discriminate].
    intros [= <-]. now apply str_in_true.
  - intros line. destruct (String.eqb_spec line EmptyString); cbn;
      split; congruence.
  - intros line a. destruct (String.eqb_spec line EmptyString); cbn; congruence.
  - intros line. destruct (search_rsc line); cbn; split; congruence.
  - intros line a. destruct (search_rsc line) eqn:H; cbn [snd]; [|discriminate].
    intros [= <-]. now exists line.
Qed.

(** C8 on a console where the user types two wrong lines and then [3]. *)
Lemma C8_validators_only_return_valid_witness :
  AppLayer._get_mode_from_user menu_constants
    {| stdin := ["x"; "5"; "3"; "1"]; stdout := [] |} =
  (Returned "3",
   {| stdin := ["1"];
      stdout := [AppLayer.mode_banner; ">>> "; "[Warning] Invalid mode.";
                 ">>> "; "[Warning] Invalid mode."; ">>> "] |}) /\
  In "3" (Mode_LIST menu_constants).
Proof.
  split; [reflexivity|].
  pose proof (C8_validators_only_return_valid menu_constants sample_search_rsc)
    as [Hmode _].
  specialize (Hmode {| stdin := ["x"; "5"; "3"; "1"]; stdout := [] |}).
  cbn in Hmode. exact (proj1 Hmode).
Defined.

(** C10: when the file validator returns, the input it has read ends with a
    file name on which the resource lookup succeeded, after names on which it
    failed, and the value returned is the path the lookup gave for that name
    (so not [None], and not the name itself). *)
Theorem C10_file_validator_returns_lookup
    (search_rsc : string -> option string) (c c' : console) (v : string) :
  AppLayer._get_file_from_user search_rsc c = (Returned v, c') ->
  exists pre filename,
    stdin c = (pre ++ filename :: stdin c')%list /\
    Forall (fun name => search_rsc name = None) pre /\
    search_rsc filename = Some v.
Proof.
  unfold AppLayer._get_file_from_user. rewrite print_then_loop. intros Hrun.
  match type of Hrun with input_loop ?b ?l ?o = _ =>
    pose proof (input_loop_inv b l o) as H end.
  rewrite Hrun in H. destruct H as (pre & filename & Heq & Hpre & Hname).
  exists pre, filename. repeat split; [exact Heq | |].
  - revert Hpre. apply Forall_impl. unfold retried. intros name.
    destruct (search_rsc name); cbn; congruence.
  - destruct (search_rsc filename); cbn in Hname; congruence.
Qed.

(** C10 where [foo.png] resolves to [/rsc/foo.png] and [bar.png] to nothing. *)
Lemma C10_file_validator_returns_lookup_witness :
  exists pre filename,
    ["bar.png"; "foo.png"; "baz"] = (pre ++ filename :: ["baz"])%list /\
    Forall (fun name => sample_search_rsc name = None) pre /\
    sample_search_rsc filename = Some "/rsc/foo.png".
Proof.
  apply (@C10_file_validator_returns_lookup sample_search_rsc
           {| stdin := ["bar.png"; "foo.png"; "baz"]; stdout := [] |}
           {| stdin := ["baz"];
              stdout := ["Input file name: (i.e. foo.png)"; ">>> ";
                         "[Warning] None not found."; ">>> "] |}
           "/rsc/foo.png").
  reflexivity.
Defined.

(** C9: with an [input_type] that is none of the five categories,
    [receive_from_user] returns the empty string at once: nothing is read
    from the console, nothing is written to it and nothing is raised. *)
Theorem C9_receive_from_user_other_type (K : constants)
    (search_rsc : string -> option string) (self : AppLayer.t)
    (input_type : value) (c : console) :
  input_type <> InputType_MODE K ->
  input_type <> InputType_DST K ->
  input_type <> InputType_MSGTYPE K ->
  input_type <> InputType_TEXT K ->
  input_type <> InputType_FILE K ->
  AppLayer.receive_from_user K search_rsc self input_type c =
  (Returned EmptyString, c).
Proof.
  intros H1 H2 H3 H4 H5. unfold AppLayer.receive_from_user.
  apply py_eq_false in H1, H2, H3, H4, H5.
  rewrite H1, H2, H3, H4, H5. reflexivity.
Qed.

(** C9 at the input type [7]. *)
Lemma C9_receive_from_user_other_type_witness :
  AppLayer.receive_from_user menu_constants sample_search_rsc
    (AppLayer.Make "1" "11300" "11200") (VInt 7)
    {| stdin := ["1"; "2"]; stdout := [] |} =
  (Returned EmptyString, {| stdin := ["1"; "2"]; stdout := [] |}).
Proof.
  apply C9_receive_from_user_other_type; cbn; discriminate.
Defined.

(* ================================================================== *)
(** ** Device identifiers and addresses *)

Lemma fullmatch_1_9_spec (s : string) : fullmatch_1_9 s = true <-> In s device_ids.
Proof.
  split.
  - destruct s as [|c [|c' s']]; try discriminate.
    destruct c as [[] [] [] [] [] [] [] []]; cbn; try discriminate; intros _;
      repeat (try (left; reflexivity); right).
  - intros H. cbn in H.
    repeat (destruct H as [<- | H]; [reflexivity|]). destruct H.
Qed.

Lemma append_inv_tail (s s' t : string) : s ++ t = s' ++ t -> s = s'.
Proof.
  revert s'. induction s as [|a s IH]; intros [|a' s'] H; cbn in H.
  - reflexivity.
  - apply (f_equal String.length) in H. cbn in H.
    rewrite string_length_app in H. lia.
  - apply (f_equal String.length) in H. cbn in H.
    rewrite string_length_app in H. lia.
  - injection H as -> H. f_equal. now apply IH.
Qed.

(** The remote-address formula tells devices apart. *)
Lemma remote_address_inj (d d' : string) :
  "1" ++ d ++ "300" = "1" ++ d' ++ "300" -> d = d'.
Proof. cbn. intros [= H]. now apply append_inv_tail in H. Qed.

Lemma init_port (T : device_table) (device_id : string) (self : AppLayer.t) :
  AppLayer.__init__ T device_id = Returned self ->
  AppLayer._device_id self = device_id /\
  AppLayer._port self = "1" ++ device_id ++ "300" /\
  In device_id device_ids.
Proof.
  unfold AppLayer.__init__, get_device_map.
  destruct (fullmatch_1_9 device_id) eqn:Hd; [|discriminate].
  intros [= <-]. cbn [AppLayer._device_id AppLayer._port config_app].
  repeat split. now apply fullmatch_1_9_spec.
Qed.

Lemma init_returns (T : device_table) (device_id : string) :
  In device_id device_ids ->
  exists self, AppLayer.__init__ T device_id = Returned self.
Proof.
  intros H. apply fullmatch_1_9_spec in H.
  unfold AppLayer.__init__, get_device_map. rewrite H. eexists. reflexivity.
Qed.

(** The body of the destination prompt accepts a line exactly when it is a
    device identifier other than the local one. *)
Lemma dst_body_accepts (self : AppLayer.t) (line : string) :
  (In line device_ids /\ line <> AppLayer._device_id self ->
   snd (AppLayer.dst_body self line) = Some ("1" ++ line ++ "300")) /\
  (AppLayer.dst_rejected self line -> retried (AppLayer.dst_body self) line).
Proof.
  unfold AppLayer.dst_body, retried, AppLayer.dst_rejected.
  rewrite <- fullmatch_1_9_spec.
  destruct (fullmatch_1_9 line); cbn [negb];
    destruct (String.eqb_spec line (AppLayer._device_id self)); cbn [snd];
    split; try reflexivity; intros H; try (destruct H; congruence); intuition congruence.
Qed.

Lemma dst_body_retried (self : AppLayer.t) (line : string) :
  retried (AppLayer.dst_body self) line -> AppLayer.dst_rejected self line.
Proof.
  unfold AppLayer.dst_body, retried, AppLayer.dst_rejected.
  rewrite <- fullmatch_1_9_spec.
  destruct (fullmatch_1_9 line); cbn [negb]; [|intros _; left; discriminate].
  destruct (String.eqb_spec line (AppLayer._device_id self)); cbn [snd];
    [intros _; now right | discriminate].
Qed.

Lemma dst_body_returned (self : AppLayer.t) (line v : string) :
  snd (AppLayer.dst_body self line) = Some v ->
  In line device_ids /\ line <> AppLayer._device_id self /\
  v = "1" ++ line ++ "300".
Proof.
  unfold AppLayer.dst_body. rewrite <- fullmatch_1_9_spec.
  destruct (fullmatch_1_9 line); cbn [negb]; [|discriminate].
  destruct (String.eqb_spec line (AppLayer._device_id self)); cbn [snd];
    [discriminate|].
  intros [= <-]. repeat split. exact n.
Qed.

(** C7: the destination prompt of a layer [self].
    (1) When it returns, the input read up to there is rejected lines
    followed by one line [d] that is a single digit 1-9 other than the local
    device identifier, and the value returned is [1] d [300]; this is not the
    address the formula gives for the local device, nor the address a layer
    built by [__init__] is bound to.  It raises nothing but the console's
    EOFError, when every line of the input is rejected.
    (2) A line that is not one of the digits 1-9 (a non-digit, several
    characters, zero, nothing) or that is the local identifier is passed
    over: the prompt goes on as if the line had not been typed.
    (3) Each digit 1-9 other than the local identifier is accepted at once.
    (4) With a local identifier in 1-9 that makes eight accepted values. *)
Theorem C7_dst_prompt (self : AppLayer.t) :
  (forall c,
     match AppLayer._get_dst_from_user self c with
     | (Returned v, c') =>
         exists pre d,
           stdin c = (pre ++ d :: stdin c')%list /\
           Forall (AppLayer.dst_rejected self) pre /\
           In d device_ids /\ d <> AppLayer._device_id self /\
           v = "1" ++ d ++ "300" /\
           v <> "1" ++ AppLayer._device_id self ++ "300" /\
           (forall T, AppLayer.__init__ T (AppLayer._device_id self) = Returned self ->
                      v <> AppLayer._port self)
     | (Raised e, _) => e = EOFError /\ Forall (AppLayer.dst_rejected self) (stdin c)
     | (Blocked, _) => False
     end) /\
  (forall line rest out,
     AppLayer.dst_rejected self line ->
     let typed := AppLayer._get_dst_from_user self (Console (line :: rest) out) in
     let untyped := AppLayer._get_dst_from_user self (Console rest out) in
     fst typed = fst untyped /\ stdin (snd typed) = stdin (snd untyped)) /\
  (forall d rest out,
     In d device_ids -> d <> AppLayer._device_id self ->
     exists out',
       AppLayer._get_dst_from_user self {| stdin := d :: rest; stdout := out |} =
       (Returned ("1" ++ d ++ "300"), {| stdin := rest; stdout := out' |})) /\
  (In (AppLayer._device_id self) device_ids ->
   List.length
     (filter (fun d => negb (String.eqb d (AppLayer._device_id self))) device_ids) = 8).
Proof.
  repeat apply conj.
  - intros c. unfold AppLayer._get_dst_from_user. rewrite print_then_loop.
    match goal with |- context [input_loop ?b ?l ?o] =>
      pose proof (input_loop_inv b l o) as H;
      destruct (input_loop b l o) as [[v|e|] c'] end.
    + destruct H as (pre & d & Heq & Hpre & Hd).
      apply dst_body_returned in Hd. destruct Hd as (Hin & Hne & ->).
      exists pre, d. repeat split; try assumption.
      * revert Hpre. apply Forall_impl. apply dst_body_retried.
      * intros Heq'. now apply remote_address_inj in Heq'.
      * intros T HT Heq'. apply init_port in HT. destruct HT as (_ & HT & _).
        rewrite HT in Heq'. now apply remote_address_inj in Heq'.
    + destruct H as [-> Hall]. split; [reflexivity|].
      revert Hall. apply Forall_impl. apply dst_body_retried.
    + exact H.
  - intros line rest out Hrej. cbv zeta. unfold AppLayer._get_dst_from_user.
    rewrite !print_then_loop. cbn [stdin stdout].
    apply dst_body_accepts in Hrej.
    rewrite (input_loop_retried _ _ Hrej). apply input_loop_out.
  - intros d rest out Hin Hne. unfold AppLayer._get_dst_from_user.
    rewrite print_then_loop. cbn [stdin stdout].
    eexists. apply input_loop_accepted. now apply dst_body_accepts.
  - cbn [device_ids In].
    intros H; repeat (destruct H as [<- | H]; [reflexivity|]); destruct H.
Qed.

(** C7 on device 1: zero, a two-digit number, a letter and the device's own
    identifier are passed over and [2] is accepted. *)
Lemma C7_dst_prompt_witness :
  AppLayer._get_dst_from_user (AppLayer.Make "1" "11300" "11200")
    {| stdin := ["0"; "12"; "a"; "1"; "2"; "3"]; stdout := [] |} =
  (Returned "12300",
   {| stdin := ["3"];
      stdout := ["Input destination device ID:";
                 ">>> "; "[Warning] ID should be an integer between 1 and 9.";
                 ">>> "; "[Warning] ID should be an integer between 1 and 9.";
                 ">>> "; "[Warning] ID should be an integer between 1 and 9.";
                 ">>> "; "[Warning] This is my ID."; ">>> "] |}) /\
  "12300" <> "11300" /\
  exists out',
    AppLayer._get_dst_from_user (AppLayer.Make "1" "11300" "11200")
      {| stdin := ["9"]; stdout := [] |} =
    (Returned "19300", {| stdin := []; stdout := out' |}).
Proof.
  pose proof (C7_dst_prompt (AppLayer.Make "1" "11300" "11200"))
    as (Hret & _ & Hacc & _).
  split; [reflexivity|]. split.
  - specialize (Hret {| stdin := ["0"; "12"; "a"; "1"; "2"; "3"]; stdout := [] |}).
    cbn in Hret. destruct Hret as (pre & d & _ & _ & _ & _ & _ & Hne & _).
    exact Hne.
  - apply (Hacc "9" [] []); cbn; [intuition | discriminate].
Defined.

(** C5: for device identifiers [d1] and [d2] in 1-9 that differ, the layers
    of both devices can be built; on device [d1] the destination prompt
    answers the line [d2] with [1] d2 [300]; and that is the address the
    application layer of device [d2] is bound to, which it took from the
    device map. *)
Theorem C5_remote_address_consistent (T : device_table) (d1 d2 : string) :
  In d1 device_ids -> In d2 device_ids -> d1 <> d2 ->
  exists a1 a2,
    AppLayer.__init__ T d1 = Returned a1 /\
    AppLayer.__init__ T d2 = Returned a2 /\
    (forall rest out, exists out',
       AppLayer._get_dst_from_user a1 {| stdin := d2 :: rest; stdout := out |} =
       (Returned ("1" ++ d2 ++ "300"), {| stdin := rest; stdout := out' |})) /\
    get_device_map T d2 =
      Returned {| config_app := "1" ++ d2 ++ "300";
                  config_net := net_address T d2;
                  config_phy := phy_address T d2 |} /\
    AppLayer._port a2 = "1" ++ d2 ++ "300".
Proof.
  intros H1 H2 Hne.
  destruct (init_returns T H1) as [a1 Ha1].
  destruct (init_returns T H2) as [a2 Ha2].
  exists a1, a2. repeat split; try assumption.
  - intros rest out. unfold AppLayer._get_dst_from_user.
    rewrite print_then_loop. cbn [stdin stdout].
    eexists. apply input_loop_accepted. apply dst_body_accepts. split; [exact H2|].
    apply init_port in Ha1. destruct Ha1 as (-> & _). congruence.
  - unfold get_device_map. apply fullmatch_1_9_spec in H2. now rewrite H2.
  - now apply init_port in Ha2.
Qed.

(** C5 for device 1 addressing device 2: the address is [12300]. *)
Lemma C5_remote_address_consistent_witness :
  exists a1 a2,
    AppLayer.__init__ sample_table "1" = Returned a1 /\
    AppLayer.__init__ sample_table "2" = Returned a2 /\
    (forall rest out, exists out',
       AppLayer._get_dst_from_user a1 {| stdin := "2" :: rest; stdout := out |} =
       (Returned "12300", {| stdin := rest; stdout := out' |})) /\
    get_device_map sample_table "2" =
      Returned {| config_app := "12300"; config_net := "12200";
                  config_phy := "12100" |} /\
    AppLayer._port a2 = "12300".
Proof.
  apply (@C5_remote_address_consistent sample_table "1" "2");
    cbn; [intuition | intuition | discriminate].
Defined.

(* ================================================================== *)
(** ** The filtering receive loop *)

(** One turn of the loop, through [_receive] without a timeout. *)
Lemma receive_until_unfold (peer : string) (message : option string)
    (port : value) (bufsize : option nat) (s : socket) :
  receive_until peer message port (inbox s) s =
  if negb (py_eq port (VStr peer)) then
    (' (message', port', _) <- _receive bufsize None ;;
     fun s' => receive_until peer (Some message') (VStr port') (inbox s') s') s
  else
    match message with
    | Some m => (Returned m, s)
    | None => (Raised UnboundLocalError, s)
    end.
Proof.
  unfold bind, _receive. cbn [bounded].
  destruct (inbox s) as [|d rest]; cbn [receive_until];
    destruct (negb (py_eq port (VStr peer))); reflexivity.
Qed.

Lemma receive_until_inv (peer : string) (pending : list datagram) :
  forall (message : option string) (port : value) (s : socket),
  match receive_until peer message port pending s with
  | (Returned m, s') =>
      (port = VStr peer /\ message = Some m /\ s' = s) \/
      (port <> VStr peer /\
       exists pre d,
         pending = (pre ++ d :: inbox s')%list /\
         Forall (fun x => sender x <> peer) pre /\
         sender d = peer /\ payload d = m)
  | (Raised e, s') =>
      e = UnboundLocalError /\ port = VStr peer /\ message = None /\ s' = s
  | (Blocked, _) =>
      port <> VStr peer /\ Forall (fun x => sender x <> peer) pending
  end.
Proof.
  induction pending as [|d rest IH]; intros message port s; cbn [receive_until].
  - destruct (py_eq port (VStr peer)) eqn:Hp; cbn [negb].
    + apply py_eq_true in Hp. destruct message; [left | ]; repeat split; assumption.
    + apply py_eq_false in Hp. split; [exact Hp | constructor].
  - destruct (py_eq port (VStr peer)) eqn:Hp; cbn [negb].
    + apply py_eq_true in Hp. destruct message; [left | ]; repeat split; assumption.
    + apply py_eq_false in Hp.
      specialize (IH (Some (payload d)) (VStr (sender d)) (deliver d rest s)).
      destruct (receive_until peer _ _ rest _) as [[m|e|] s'].
      * right. split; [exact Hp|].
        destruct IH as [(Hs & Hm & ->) | (Hs & pre & d' & -> & Hpre & Hd' & Hm)].
        -- exists [], d. cbn. repeat split; [constructor | congruence | congruence].
        -- exists (d :: pre), d'. cbn. repeat split; try assumption.
           constructor; [congruence | exact Hpre].
      * destruct IH as (_ & _ & Hm & _). discriminate.
      * destruct IH as [Hs Hall]. split; [exact Hp|].
        constructor; [congruence | exact Hall].
Qed.

(** C2: on every socket, that is for every sequence of datagrams that
    reaches the endpoint, [AppLayer.receive_from_net] returns only the payload
    of a datagram whose sender is the bound network-layer address, after
    passing over the datagrams before it, all from other senders; with no
    datagram from that address it waits for ever and returns nothing.
    [NetLayer.receive_from_app] does the same for the bound app address (it
    raises, and returns nothing, when that address is the initial value of
    its variable [port]). *)
Theorem C2_peer_isolation (a : AppLayer.t) (n : NetLayer.t) (s : socket) :
  match AppLayer.receive_from_net a s with
  | (Returned m, s') =>
      exists pre d,
        inbox s = (pre ++ d :: inbox s')%list /\
        Forall (fun x => sender x <> AppLayer._net a) pre /\
        sender d = AppLayer._net a /\ payload d = m
  | (Raised _, _) => False
  | (Blocked, _) => Forall (fun x => sender x <> AppLayer._net a) (inbox s)
  end /\
  match NetLayer.receive_from_app n s with
  | (Returned m, s') =>
      exists pre d,
        inbox s = (pre ++ d :: inbox s')%list /\
        Forall (fun x => sender x <> NetLayer.app n) pre /\
        sender d = NetLayer.app n /\ payload d = m
  | (Raised e, _) => e = UnboundLocalError /\ NetLayer.app n = "-1"
  | (Blocked, _) => Forall (fun x => sender x <> NetLayer.app n) (inbox s)
  end.
Proof.
  split.
  - unfold AppLayer.receive_from_net.
    pose proof (receive_until_inv (AppLayer._net a) (inbox s) None VNone s) as H.
    destruct (receive_until _ _ _ _ _) as [[m|e|] s'].
    + destruct H as [(H & _) | (_ & H)]; [discriminate | exact H].
    + destruct H as (_ & H & _). discriminate.
    + apply H.
  - unfold NetLayer.receive_from_app.
    pose proof (receive_until_inv (NetLayer.app n) (inbox s) None (VStr "-1") s) as H.
    destruct (receive_until _ _ _ _ _) as [[m|e|] s'].
    + destruct H as [(_ & H & _) | (_ & H)]; [discriminate | exact H].
    + destruct H as (He & [= H] & _). split; [exact He | now symmetry].
    + apply H.
Qed.

(** C2 on an inbox where a datagram from a foreign address comes before two
    from the application layer. *)
Lemma C2_peer_isolation_witness :
  fst (NetLayer.receive_from_app sample_net mixed_socket) = Returned "y" /\
  exists pre d,
    inbox mixed_socket = (pre ++ d :: [Datagram "z" "11300" 4])%list /\
    Forall (fun x => sender x <> "11300") pre /\
    sender d = "11300" /\ payload d = "y".
Proof.
  split; [reflexivity|].
  exact (proj2 (C2_peer_isolation (AppLayer.Make "1" "11300" "11200")
                  sample_net mixed_socket)).
Defined.

(* ================================================================== *)
(** ** The physical boundary *)

(** C3: whatever [_receive] reports for the timeout in force, a received
    ([success] true) bit sequence is returned as [bits_to_string] of it with
    the flag true (a sequence that is the bits of no text raises); on a
    timeout ([success] false) the value [_receive] gave is returned as it is
    with the flag false, and nothing is raised.  A call without the timeout
    argument is a call with [Network.RECV_TIMEOUT]. *)
Theorem C3_receive_from_phy_outcome (K : constants) (E : codec)
    (self : NetLayer.t) (timeout : option Z) (s s' : socket)
    (binary from : string) (success : bool) :
  _receive None
    (Some match timeout with Some t => t | None => Network_RECV_TIMEOUT K end) s =
    (Returned (binary, from, success), s') ->
  NetLayer.receive_from_phy K E self timeout s =
    (if success
     then match bits_to_string E binary with
          | Some text => Returned (text, true)
          | None => Raised UnicodeError
          end
     else Returned (binary, false), s') /\
  NetLayer.receive_from_phy K E self None =
  NetLayer.receive_from_phy K E self (Some (Network_RECV_TIMEOUT K)).
Proof.
  intros H. split; [|reflexivity].
  unfold NetLayer.receive_from_phy, bind. rewrite H.
  destruct success; [destruct (bits_to_string E binary)|]; reflexivity.
Qed.

(** C3 on a socket whose only datagram comes too late for the default
    timeout: the idle value comes back with the flag false. *)
Lemma C3_receive_from_phy_outcome_witness :
  NetLayer.receive_from_phy menu_constants ascii_codec sample_net None late_socket =
    (Returned (EmptyString, false), timed_out 3 late_socket) /\
  NetLayer.receive_from_phy menu_constants ascii_codec sample_net None =
  NetLayer.receive_from_phy menu_constants ascii_codec sample_net (Some 3%Z).
Proof.
  apply (@C3_receive_from_phy_outcome menu_constants ascii_codec sample_net None
           late_socket (timed_out 3 late_socket) EmptyString "-1" false).
  reflexivity.
Defined.

(** The sender of the datagram plays no part in [receive_from_phy]: the
    first datagram to arrive in time is taken, whoever sent it. *)
Lemma receive_from_phy_any_sender (K : constants) (E : codec) (self : NetLayer.t)
    (t : Z) (s : socket) (d : datagram) (rest : list datagram) :
  t <> 0%Z -> inbox s = d :: rest -> (arrival d <= now s + t)%Z ->
  NetLayer.receive_from_phy K E self (Some t) s =
  (match bits_to_string E (payload d) with
   | Some text => Returned (text, true)
   | None => Raised UnicodeError
   end, deliver d rest s).
Proof.
  intros Ht Hin Harr. unfold NetLayer.receive_from_phy, bind, _receive, bounded.
  apply Z.eqb_neq in Ht. apply Z.leb_le in Harr. rewrite Ht, Hin, Harr.
  destruct (bits_to_string E (payload d)); reflexivity.
Qed.

(** C4: on a socket where the one datagram to arrive within the timeout
    comes from the application layer and none comes from the physical-layer
    address, [receive_from_phy] still reports success and returns the text of
    that datagram. *)
Theorem C4_receive_from_phy_foreign_sender :
  Forall (fun d => sender d <> NetLayer.phy sample_net) (inbox foreign_socket) /\
  NetLayer.receive_from_phy menu_constants ascii_codec sample_net (Some 3%Z)
    foreign_socket =
  (Returned ("a", true),
   deliver (Datagram "01100001" "11300" 1) [] foreign_socket).
Proof.
  split; [|reflexivity].
  repeat constructor. cbn. discriminate.
Qed.

(** C6: during [send_to_phy] the layer first sleeps for
    [Network.FLOW_INTERVAL], whatever the payload, and does not sleep again;
    every datagram it then transmits goes to the physical-layer address and
    carries [string_to_bits] of the payload; when the call returns, exactly
    that one datagram was transmitted and the value returned is its length. *)
Theorem C6_send_to_phy_trace (K : constants) (E : codec) (self : NetLayer.t)
    (binary : string) (s : socket) :
  exists after,
    log (snd (NetLayer.send_to_phy K E self binary s)) =
      (log s ++ Slept (Network_FLOW_INTERVAL K) :: after)%list /\
    (forall message destination,
       In (Sent message destination) after ->
       string_to_bits E binary = Some message /\
       destination = NetLayer.phy self) /\
    (forall duration, ~ In (Slept duration) after) /\
    (forall n,
       fst (NetLayer.send_to_phy K E self binary s) = Returned n ->
       exists bits,
         string_to_bits E binary = Some bits /\
         after = [Sent bits (NetLayer.phy self)] /\
         n = String.length bits).
Proof.
  unfold NetLayer.send_to_phy, bind, sleep, raise, _send.
  destruct (string_to_bits E binary) as [bits|]; cbn [limit log fst snd].
  - destruct (Nat.leb (String.length bits) (limit s)); cbn [limit log fst snd].
    + exists [Sent bits (NetLayer.phy self)]. rewrite <- app_assoc.
      repeat split.
      * destruct H as [[= <- <-] | []]. reflexivity.
      * destruct H as [[= <- <-] | []]. reflexivity.
      * intros d [H | []]. discriminate.
      * intros n [= <-]. exists bits. repeat split.
    + exists []. repeat split; try contradiction.
      * intros d []. 
      * discriminate.
  - exists []. repeat split; try contradiction.
    + intros d [].
    + discriminate.
Qed.

(** C6 for the payload [hi]. *)
Lemma C6_send_to_phy_trace_witness :
  NetLayer.send_to_phy menu_constants ascii_codec sample_net "hi"
    (sample_socket []) =
  (Returned 16,
   {| inbox := []; now := 1;
      log := [Slept 1; Sent "0110100001101001" "11100"];
      limit := 1024; idle := (EmptyString, "-1") |}) /\
  exists after,
    [Slept 1%Z; Sent "0110100001101001" "11100"] = (Slept 1%Z :: after) /\
    (forall message destination,
       In (Sent message destination) after ->
       Some "0110100001101001" = Some message /\ destination = "11100").
Proof.
  split; [reflexivity|].
  destruct (C6_send_to_phy_trace menu_constants ascii_codec sample_net "hi"
              (sample_socket []))
    as (after & Hlog & Hsent & _).
  exists after. split; [exact Hlog | exact Hsent].
Defined.

(* ================================================================== *)
(** ** The prompt loop, forwards: what is read and what is written *)

Section InputLoopRun.

Variable A : Type.
Variable body : string -> list string * option A.

(** What one turn writes: the prompt, then what the body prints. *)
Let turn (line : string) : list string := ">>> " :: fst (body line).

Lemma input_loop_run (pre : list string) (line : string) (a : A)
    (rest out : list string) :
  Forall (retried body) pre ->
  snd (body line) = Some a ->
  input_loop body (pre ++ line :: rest) out =
  (Returned a,
   {| stdin := rest; stdout := (out ++ flat_map turn (pre ++ [line]))%list |}).
Proof.
  intros Hpre Hline. revert out.
  induction Hpre as [|l pre Hl Hpre IH]; intros out.
  - cbn. rewrite Hline, app_nil_r. reflexivity.
  - cbn [app]. rewrite (input_loop_retried _ _ Hl), IH.
    cbn [flat_map]. unfold turn at 3. rewrite <- !app_assoc. reflexivity.
Qed.

Lemma input_loop_eof (lines out : list string) :
  Forall (retried body) lines ->
  input_loop body lines out =
  (Raised EOFError,
   {| stdin := []; stdout := (out ++ flat_map turn lines ++ [">>> "])%list |}).
Proof.
  intros Hall. revert out.
  induction Hall as [|l lines Hl Hall IH]; intros out.
  - reflexivity.
  - rewrite (input_loop_retried _ _ Hl), IH.
    cbn [flat_map]. unfold turn at 2. rewrite <- !app_assoc. reflexivity.
Qed.

End InputLoopRun.

Lemma flat_map_Forall_ext A B (f g : A -> list B) (l : list A) :
  Forall (fun x => f x = g x) l -> flat_map f l = flat_map g l.
Proof.
  induction 1 as [|x l Hx _ IH]; [reflexivity|].
  cbn. now rewrite Hx, IH.
Qed.

(** A validator whose body prints [warning] for a line it does not accept and
    nothing for one it accepts: its run on lines [pre], none accepted,
    followed by an accepted line, and its run on an input of lines none of
    which is accepted. *)
Lemma warning_loop_run A (header : string) (warning : list string)
    (body : string -> list string * option A) (pre : list string)
    (line : string) (a : A) (rest out : list string) :
  Forall (fun l => body l = (warning, None)) pre ->
  body line = ([], Some a) ->
  (print header ;; while_True_input body)
    {| stdin := (pre ++ line :: rest)%list; stdout := out |} =
  (Returned a,
   {| stdin := rest;
      stdout := (out ++ header :: flat_map (fun _ => ">>> " :: warning) pre
                     ++ [">>> "])%list |}).
Proof.
  intros Hpre Hline. rewrite print_then_loop. cbn [stdin stdout].
  rewrite (@input_loop_run _ body pre line a).
  - rewrite flat_map_app. cbn [flat_map]. rewrite Hline. cbn [fst app].
    rewrite (@flat_map_Forall_ext _ _ _ (fun _ => ">>> " :: warning) pre).
    + rewrite <- !app_assoc. reflexivity.
    + revert Hpre. apply Forall_impl. now intros l ->.
  - revert Hpre. apply Forall_impl. unfold retried. now intros l ->.
  - now rewrite Hline.
Qed.

Lemma warning_loop_eof A (header : string) (warning : list string)
    (body : string -> list string * option A) (lines out : list string) :
  Forall (fun l => body l = (warning, None)) lines ->
  (print header ;; while_True_input body) {| stdin := lines; stdout := out |} =
  (@Raised A EOFError,
   {| stdin := [];
      stdout := (out ++ header :: flat_map (fun _ => ">>> " :: warning) lines
                     ++ [">>> "])%list |}).
Proof.
  intros Hall. rewrite print_then_loop. cbn [stdin stdout].
  rewrite (@input_loop_eof _ body lines).
  - rewrite (@flat_map_Forall_ext _ _ _ (fun _ => ">>> " :: warning) lines).
    + rewrite <- !app_assoc. reflexivity.
    + revert Hall. apply Forall_impl. now intros l ->.
  - revert Hall. apply Forall_impl. unfold retried. now intros l ->.
Qed.

Lemma str_in_false (x : string) (xs : list string) :
  ~ In x xs -> str_in x xs = false.
Proof.
  intros H. destruct (str_in x xs) eqn:E; [|reflexivity].
  now apply str_in_true in E.
Qed.

(** X1: the mode prompt.  On lines none of which is a mode code, followed by
    a mode code, it returns that code as typed and leaves the lines after it;
    it has then written the banner, and for each earlier line the prompt and
    one warning, and a last prompt.  On an input without any mode code it
    reads all of it, writes the same and one more prompt, and raises
    EOFError. *)
Theorem X1_mode_prompt_run (K : constants) :
  (forall pre mode rest out,
     Forall (fun l => ~ In l (Mode_LIST K)) pre ->
     In mode (Mode_LIST K) ->
     AppLayer._get_mode_from_user K
       {| stdin := (pre ++ mode :: rest)%list; stdout := out |} =
     (Returned mode,
      {| stdin := rest;
         stdout := (out ++ AppLayer.mode_banner
                      :: flat_map (fun _ => [">>> "; "[Warning] Invalid mode."]) pre
                      ++ [">>> "])%list |})) /\
  (forall lines out,
     Forall (fun l => ~ In l (Mode_LIST K)) lines ->
     AppLayer._get_mode_from_user K {| stdin := lines; stdout := out |} =
     (Raised EOFError,
      {| stdin := [];
         stdout := (out ++ AppLayer.mode_banner
                      :: flat_map (fun _ => [">>> "; "[Warning] Invalid mode."]) lines
                      ++ [">>> "])%list |})).
Proof.
  split.
  - intros pre mode rest out Hpre Hmode. apply warning_loop_run.
    + revert Hpre. apply Forall_impl. intros l Hl. now rewrite (str_in_false _ _ Hl).
    + apply str_in_true in Hmode. now rewrite Hmode.
  - intros lines out Hall. apply warning_loop_eof.
    revert Hall. apply Forall_impl. intros l Hl. now rewrite (str_in_false _ _ Hl).
Qed.

(** X1 where the user types [x], [5] and then [3]. *)
Lemma X1_mode_prompt_run_witness :
  AppLayer._get_mode_from_user menu_constants
    {| stdin := ["x"; "5"; "3"; "1"]; stdout := [] |} =
  (Returned "3",
   {| stdin := ["1"];
      stdout := [AppLayer.mode_banner; ">>> "; "[Warning] Invalid mode.";
                 ">>> "; "[Warning] Invalid mode."; ">>> "] |}).
Proof.
  apply (proj1 (X1_mode_prompt_run menu_constants) ["x"; "5"] "3" ["1"] []).
  - repeat constructor; cbn; intuition discriminate.
  - cbn. intuition.
Defined.

(** X2: the message-kind prompt.  As the mode prompt, with the two
    message-kind codes, its own header and its own warning. *)
Theorem X2_msgtype_prompt_run (K : constants) :
  (forall pre msgtype rest out,
     Forall (fun l => ~ In l (MessageType_LIST K)) pre ->
     In msgtype (MessageType_LIST K) ->
     AppLayer._get_msgtype_from_user K
       {| stdin := (pre ++ msgtype :: rest)%list; stdout := out |} =
     (Returned msgtype,
      {| stdin := rest;
         stdout := (out ++ ("Input message type:" ++ newline ++ "1::Text  2::File")%string
                      :: flat_map (fun _ => [">>> "; "[Warning] Invalid message type!"]) pre
                      ++ [">>> "])%list |})) /\
  (forall lines out,
     Forall (fun l => ~ In l (MessageType_LIST K)) lines ->
     AppLayer._get_msgtype_from_user K {| stdin := lines; stdout := out |} =
     (Raised EOFError,
      {| stdin := [];
         stdout := (out ++ ("Input message type:" ++ newline ++ "1::Text  2::File")%string
                      :: flat_map (fun _ => [">>> "; "[Warning] Invalid message type!"]) lines
                      ++ [">>> "])%list |})).
Proof.
  split.
  - intros pre msgtype rest out Hpre Hin. apply warning_loop_run.
    + revert Hpre. apply Forall_impl. intros l Hl. now rewrite (str_in_false _ _ Hl).
    + apply str_in_true in Hin. now rewrite Hin.
  - intros lines out Hall. apply warning_loop_eof.
    revert Hall. apply Forall_impl. intros l Hl. now rewrite (str_in_false _ _ Hl).
Qed.

(** X2 where the user types [text] and then [2]. *)
Lemma X2_msgtype_prompt_run_witness :
  AppLayer._get_msgtype_from_user menu_constants
    {| stdin := ["text"; "2"]; stdout := [] |} =
  (Returned "2",
   {| stdin := [];
      stdout := ["Input message type:" ++ newline ++ "1::Text  2::File";
                 ">>> "; "[Warning] Invalid message type!"; ">>> "] |}).
Proof.
  apply (proj1 (X2_msgtype_prompt_run menu_constants) ["text"] "2" [] []).
  - repeat constructor; cbn; intuition discriminate.
  - cbn. intuition.
Defined.

(** X3: the free-text prompt passes over empty lines without a word: after
    [k] empty lines and a line that is not empty it returns that line as
    typed (blanks and all), having written its header and [k + 1] prompts and
    no warning; on an input of empty lines only it raises EOFError. *)
Theorem X3_text_prompt_run :
  (forall k message rest out,
     message <> EmptyString ->
     AppLayer._get_text_from_user
       {| stdin := (repeat EmptyString k ++ message :: rest)%list; stdout := out |} =
     (Returned message,
      {| stdin := rest;
         stdout := (out ++ "Input a piece of message:"
                      :: repeat ">>> " (S k))%list |})) /\
  (forall k out,
     AppLayer._get_text_from_user
       {| stdin := repeat EmptyString k; stdout := out |} =
     (Raised EOFError,
      {| stdin := [];
         stdout := (out ++ "Input a piece of message:"
                      :: repeat ">>> " (S k))%list |})).
Proof.
  assert (Hflat : forall k,
    (flat_map (fun _ : string => [">>> "]) (repeat EmptyString k) ++ [">>> "])%list
    = repeat ">>> " (S k)).
  { induction k as [|k IH]; [reflexivity|]. cbn in *. now rewrite IH. }
  assert (Hempty : forall k,
    Forall (fun l => (if negb (String.eqb l EmptyString)
                      then ([], Some l) else ([], None))
                     = (@nil string, @None string)) (repeat EmptyString k)).
  { intros k. apply Forall_forall. intros l Hl.
    apply repeat_spec in Hl. now subst. }
  split.
  - intros k message rest out Hne. unfold AppLayer._get_text_from_user.
    rewrite (@warning_loop_run _ _ [] _ (repeat EmptyString k) message message).
    + now rewrite Hflat.
    + apply Hempty.
    + apply String.eqb_neq in Hne. now rewrite Hne.
  - intros k out. unfold AppLayer._get_text_from_user.
    rewrite (@warning_loop_eof _ _ [] _ (repeat EmptyString k)).
    + now rewrite Hflat.
    + apply Hempty.
Qed.

(** X3 where the user presses return twice and then types a blank. *)
Lemma X3_text_prompt_run_witness :
  AppLayer._get_text_from_user
    {| stdin := [EmptyString; EmptyString; " "; "hi"]; stdout := [] |} =
  (Returned " ",
   {| stdin := ["hi"];
      stdout := ["Input a piece of message:"; ">>> "; ">>> "; ">>> "] |}).
Proof.
  apply (proj1 X3_text_prompt_run 2 " " ["hi"] []). discriminate.
Defined.

(** X4: the file prompt.  On names the lookup does not know, followed by a
    name it resolves to [filepath], it returns [filepath] and leaves the
    lines after it.  Each unknown name is answered by the same warning, which
    reads [None] where the name might be: what is written depends on how
    many names failed, not on which.  On an input of unknown names only it
    raises EOFError. *)
Theorem X4_file_prompt_run (search_rsc : string -> option string) :
  (forall pre filename filepath rest out,
     Forall (fun name => search_rsc name = None) pre ->
     search_rsc filename = Some filepath ->
     AppLayer._get_file_from_user search_rsc
       {| stdin := (pre ++ filename :: rest)%list; stdout := out |} =
     (Returned filepath,
      {| stdin := rest;
         stdout := (out ++ "Input file name: (i.e. foo.png)"
                      :: flat_map (fun _ => [">>> "; "[Warning] None not found."]) pre
                      ++ [">>> "])%list |})) /\
  (forall lines out,
     Forall (fun name => search_rsc name = None) lines ->
     AppLayer._get_file_from_user search_rsc {| stdin := lines; stdout := out |} =
     (Raised EOFError,
      {| stdin := [];
         stdout := (out ++ "Input file name: (i.e. foo.png)"
                      :: flat_map (fun _ => [">>> "; "[Warning] None not found."]) lines
                      ++ [">>> "])%list |})).
Proof.
  split.
  - intros pre filename filepath rest out Hpre Hname. apply warning_loop_run.
    + revert Hpre. apply Forall_impl. now intros l ->.
    + now rewrite Hname.
  - intros lines out Hall. apply warning_loop_eof.
    revert Hall. apply Forall_impl. now intros l ->.
Qed.

(** X4 where [bar.png] is unknown and [foo.png] resolves. *)
Lemma X4_file_prompt_run_witness :
  AppLayer._get_file_from_user sample_search_rsc
    {| stdin := ["bar.png"; "foo.png"; "baz"]; stdout := [] |} =
  (Returned "/rsc/foo.png",
   {| stdin := ["baz"];
      stdout := ["Input file name: (i.e. foo.png)"; ">>> ";
                 "[Warning] None not found."; ">>> "] |}).
Proof.
  apply (proj1 (X4_file_prompt_run sample_search_rsc)
           ["bar.png"] "foo.png" "/rsc/foo.png" ["baz"] []).
  - repeat constructor.
  - reflexivity.
Defined.

(** One turn of the destination prompt on a line it rejects, for a layer
    whose identifier is a digit 1-9. *)
Lemma dst_body_rejected (self : AppLayer.t) (line : string) :
  In (AppLayer._device_id self) device_ids ->
  AppLayer.dst_rejected self line ->
  AppLayer.dst_body self line =
  ([if String.eqb line (AppLayer._device_id self)
    then "[Warning] This is my ID."
    else "[Warning] ID should be an integer between 1 and 9."], None).
Proof.
  intros Hown Hrej. unfold AppLayer.dst_body.
  destruct (fullmatch_1_9 line) eqn:Hm; cbn [negb].
  - apply fullmatch_1_9_spec in Hm. destruct Hrej as [Hno | ->]; [contradiction|].
    now rewrite String.eqb_refl.
  - destruct (String.eqb_spec line (AppLayer._device_id self)) as [-> | _];
      [|reflexivity].
    apply fullmatch_1_9_spec in Hown. congruence.
Qed.

(** X5: the destination prompt of a layer whose identifier is a digit 1-9.
    On rejected lines followed by another digit [d] it returns [1] d [300]
    and leaves the lines after [d]; each rejected line was answered by one
    warning, [This is my ID] for the local identifier and the 1-9 warning for
    anything else.  On an input of rejected lines only it raises EOFError
    after the same warnings. *)
Theorem X5_dst_prompt_run (self : AppLayer.t) :
  In (AppLayer._device_id self) device_ids ->
  (forall pre d rest out,
     Forall (AppLayer.dst_rejected self) pre ->
     In d device_ids -> d <> AppLayer._device_id self ->
     AppLayer._get_dst_from_user self
       {| stdin := (pre ++ d :: rest)%list; stdout := out |} =
     (Returned ("1" ++ d ++ "300"),
      {| stdin := rest;
         stdout :=
           (out ++ "Input destination device ID:"
              :: flat_map (fun l =>
                   [">>> ";
                    if String.eqb l (AppLayer._device_id self)
                    then "[Warning] This is my ID."
                    else "[Warning] ID should be an integer between 1 and 9."])
                   pre
              ++ [">>> "])%list |})) /\
  (forall lines out,
     Forall (AppLayer.dst_rejected self) lines ->
     AppLayer._get_dst_from_user self {| stdin := lines; stdout := out |} =
     (Raised EOFError,
      {| stdin := [];
         stdout :=
           (out ++ "Input destination device ID:"
              :: flat_map (fun l =>
                   [">>> ";
                    if String.eqb l (AppLayer._device_id self)
                    then "[Warning] This is my ID."
                    else "[Warning] ID should be an integer between 1 and 9."])
                   lines
              ++ [">>> "])%list |})).
Proof.
  intros Hown.
  assert (Hturn : forall l, Forall (AppLayer.dst_rejected self) l ->
    flat_map (fun x => ">>> " :: fst (AppLayer.dst_body self x)) l =
    flat_map (fun x =>
      [">>> ";
       if String.eqb x (AppLayer._device_id self)
       then "[Warning] This is my ID."
       else "[Warning] ID should be an integer between 1 and 9."]) l).
  { intros l Hl. apply flat_map_Forall_ext. revert Hl. apply Forall_impl.
    intros x Hx. now rewrite (@dst_body_rejected self x Hown Hx). }
  assert (Hret : forall l, Forall (AppLayer.dst_rejected self) l ->
    Forall (retried (AppLayer.dst_body self)) l).
  { intros l. apply Forall_impl. intros x Hx. now apply dst_body_accepts. }
  split.
  - intros pre d rest out Hpre Hd Hne. unfold AppLayer._get_dst_from_user.
    rewrite print_then_loop. cbn [stdin stdout].
    assert (Hacc : snd (AppLayer.dst_body self d) = Some ("1" ++ d ++ "300"))
      by now apply dst_body_accepts.
    rewrite (@input_loop_run _ _ pre d _ rest _ (Hret _ Hpre) Hacc).
    rewrite flat_map_app, (Hturn _ Hpre). cbn [flat_map].
    assert (Hfst : fst (AppLayer.dst_body self d) = []).
    { unfold AppLayer.dst_body. apply fullmatch_1_9_spec in Hd. rewrite Hd.
      apply String.eqb_neq in Hne. now rewrite Hne. }
    rewrite Hfst. cbn [app]. rewrite <- !app_assoc. reflexivity.
  - intros lines out Hall. unfold AppLayer._get_dst_from_user.
    rewrite print_then_loop. cbn [stdin stdout].
    rewrite (@input_loop_eof _ _ lines _ (Hret _ Hall)), (Hturn _ Hall).
    rewrite <- !app_assoc. reflexivity.
Qed.

(** X5 on device 1. *)
Lemma X5_dst_prompt_run_witness :
  AppLayer._get_dst_from_user (AppLayer.Make "1" "11300" "11200")
    {| stdin := ["0"; "1"; "2"; "3"]; stdout := [] |} =
  (Returned "12300",
   {| stdin := ["3"];
      stdout := ["Input destination device ID:";
                 ">>> "; "[Warning] ID should be an integer between 1 and 9.";
                 ">>> "; "[Warning] This is my ID."; ">>> "] |}).
Proof.
  assert (Hown : In "1" device_ids) by (cbn; intuition).
  apply (proj1 (@X5_dst_prompt_run (AppLayer.Make "1" "11300" "11200") Hown)
           ["0"; "1"] "2" ["3"] []).
  - apply Forall_cons; [left; cbn; intuition discriminate|].
    apply Forall_cons; [right; reflexivity | constructor].
  - cbn. intuition.
  - cbn. discriminate.
Defined.

(** X6: a layer whose own identifier is not a digit 1-9 has no identifier to
    refuse: its destination prompt accepts every one of the nine digits, and
    a line equal to the layer's identifier is answered like any other line
    that is no digit, with the 1-9 warning. *)
Theorem X6_dst_prompt_foreign_id (self : AppLayer.t) (pre : list string)
    (d : string) (rest out : list string) :
  ~ In (AppLayer._device_id self) device_ids ->
  Forall (fun l => ~ In l device_ids) pre ->
  In d device_ids ->
  AppLayer._get_dst_from_user self
    {| stdin := (pre ++ d :: rest)%list; stdout := out |} =
  (Returned ("1" ++ d ++ "300"),
   {| stdin := rest;
      stdout :=
        (out ++ "Input destination device ID:"
           :: flat_map (fun _ =>
                [">>> "; "[Warning] ID should be an integer between 1 and 9."])
                pre
           ++ [">>> "])%list |}).
Proof.
  intros Hown Hpre Hd. apply warning_loop_run.
  - revert Hpre. apply Forall_impl. intros l Hl. unfold AppLayer.dst_body.
    destruct (fullmatch_1_9 l) eqn:Hm; [|reflexivity].
    now apply fullmatch_1_9_spec in Hm.
  - unfold AppLayer.dst_body. pose proof Hd as Hm.
    apply fullmatch_1_9_spec in Hm. rewrite Hm. cbn [negb].
    destruct (String.eqb_spec d (AppLayer._device_id self)) as [-> | _];
      [contradiction | reflexivity].
Qed.

(** X6 for a layer with the identifier [10]. *)
Lemma X6_dst_prompt_foreign_id_witness :
  AppLayer._get_dst_from_user (AppLayer.Make "10" "110300" "110200")
    {| stdin := ["10"; "1"]; stdout := [] |} =
  (Returned "11300",
   {| stdin := [];
      stdout := ["Input destination device ID:"; ">>> ";
                 "[Warning] ID should be an integer between 1 and 9."; ">>> "] |}).
Proof.
  apply (@X6_dst_prompt_foreign_id (AppLayer.Make "10" "110300" "110200")
           ["10"] "1" [] []).
  - cbn. intuition discriminate.
  - apply Forall_cons; [cbn; intuition discriminate | constructor].
  - cbn. intuition.
Defined.

(* ================================================================== *)
(** ** The filtering receive loop, forwards *)

Lemma receive_until_done (peer m : string) (port : value)
    (pending : list datagram) (s : socket) :
  py_eq port (VStr peer) = true ->
  receive_until peer (Some m) port pending s = (Returned m, s).
Proof. intros H. destruct pending; cbn; now rewrite H. Qed.

Lemma receive_until_run (peer : string) (pre : list datagram) (d : datagram)
    (post : list datagram) :
  forall (message : option string) (port : value) (s : socket),
  port <> VStr peer ->
  Forall (fun x => sender x <> peer) pre ->
  sender d = peer ->
  receive_until peer message port (pre ++ d :: post) s =
  (Returned (payload d),
   {| inbox := post;
      now := fold_left (fun t x => Z.max t (arrival x)) (pre ++ [d]) (now s);
      log := log s; limit := limit s; idle := idle s |}).
Proof.
  induction pre as [|x pre IH]; intros message port s Hport Hpre Hd;
    apply py_eq_false in Hport; cbn [app receive_until]; rewrite Hport; cbn [negb].
  - rewrite receive_until_done; [reflexivity|].
    apply py_eq_true. now rewrite Hd.
  - inversion Hpre as [|? ? Hx Hpre']; subst.
    rewrite IH; [reflexivity | congruence | exact Hpre' | reflexivity].
Qed.

(** X7: when the inbox holds datagrams from other senders followed by one
    from the bound peer, the filtering receive returns the payload of that
    one and leaves in the inbox exactly what came after it: the datagrams
    before it are gone for good.  The clock has moved to the latest arrival
    read (if that is later than it was) and nothing was sent.  This is so for
    [AppLayer.receive_from_net], and for [NetLayer.receive_from_app] when the
    app address is not [-1]. *)
Theorem X7_filtering_receive_run (pre : list datagram) (d : datagram)
    (post : list datagram) (s : socket) :
  inbox s = (pre ++ d :: post)%list ->
  (forall a : AppLayer.t,
     Forall (fun x => sender x <> AppLayer._net a) pre ->
     sender d = AppLayer._net a ->
     AppLayer.receive_from_net a s =
     (Returned (payload d),
      {| inbox := post;
         now := fold_left (fun t x => Z.max t (arrival x)) (pre ++ [d]) (now s);
         log := log s; limit := limit s; idle := idle s |})) /\
  (forall n : NetLayer.t,
     NetLayer.app n <> "-1" ->
     Forall (fun x => sender x <> NetLayer.app n) pre ->
     sender d = NetLayer.app n ->
     NetLayer.receive_from_app n s =
     (Returned (payload d),
      {| inbox := post;
         now := fold_left (fun t x => Z.max t (arrival x)) (pre ++ [d]) (now s);
         log := log s; limit := limit s; idle := idle s |})).
Proof.
  intros Hin. split.
  - intros a Hpre Hd. unfold AppLayer.receive_from_net. rewrite Hin.
    apply receive_until_run; [discriminate | exact Hpre | exact Hd].
  - intros n Hne Hpre Hd. unfold NetLayer.receive_from_app. rewrite Hin.
    apply receive_until_run; [congruence | exact Hpre | exact Hd].
Qed.

(** X7 on the socket that a foreign datagram reaches first. *)
Lemma X7_filtering_receive_run_witness :
  NetLayer.receive_from_app sample_net mixed_socket =
  (Returned "y",
   {| inbox := [Datagram "z" "11300" 4]; now := 3; log := []; limit := 1024;
      idle := (EmptyString, "-1") |}).
Proof.
  apply (proj2 (@X7_filtering_receive_run [Datagram "x" "19999" 2]
                  (Datagram "y" "11300" 3) [Datagram "z" "11300" 4]
                  mixed_socket eq_refl) sample_net).
  - cbn. discriminate.
  - repeat constructor. cbn. discriminate.
  - reflexivity.
Defined.

Lemma receive_until_fifo (peer : string) (message : option string)
    (port : value) (s s' : socket) (m : string) :
  port <> VStr peer ->
  receive_until peer message port (inbox s) s = (Returned m, s') ->
  map payload (filter (fun x => String.eqb (sender x) peer) (inbox s)) =
  m :: map payload (filter (fun x => String.eqb (sender x) peer) (inbox s')).
Proof.
  intros Hport Hrun.
  pose proof (receive_until_inv peer (inbox s) message port s) as H.
  rewrite Hrun in H.
  destruct H as [(Heq & _) | (_ & pre & d & -> & Hpre & Hd & Hm)];
    [contradiction|].
  rewrite filter_app. cbn [filter]. rewrite Hd, String.eqb_refl.
  assert (Hnil : filter (fun x => String.eqb (sender x) peer) pre = []).
  { clear -Hpre. induction Hpre as [|x pre Hx _ IH]; [reflexivity|].
    cbn. apply String.eqb_neq in Hx. now rewrite Hx. }
  rewrite Hnil. cbn. now rewrite Hm.
Qed.

(** X8: the filtering receives hand out the peer's messages in the order of
    their arrival, none skipped and none twice: when a call returns [m], the
    payloads of the peer's datagrams in the inbox before the call are [m]
    followed by the payloads of the peer's datagrams in the inbox after it. *)
Theorem X8_filtering_receive_fifo (s s' : socket) (m : string) :
  (forall a : AppLayer.t,
     AppLayer.receive_from_net a s = (Returned m, s') ->
     map payload (filter (fun x => String.eqb (sender x) (AppLayer._net a)) (inbox s)) =
     m :: map payload
            (filter (fun x => String.eqb (sender x) (AppLayer._net a)) (inbox s'))) /\
  (forall n : NetLayer.t,
     NetLayer.receive_from_app n s = (Returned m, s') ->
     map payload (filter (fun x => String.eqb (sender x) (NetLayer.app n)) (inbox s)) =
     m :: map payload
            (filter (fun x => String.eqb (sender x) (NetLayer.app n)) (inbox s'))).
Proof.
  split.
  - intros a. apply receive_until_fifo. discriminate.
  - intros n Hrun. unfold NetLayer.receive_from_app in Hrun.
    apply (@receive_until_fifo (NetLayer.app n) None (VStr "-1") s s' m);
      [|exact Hrun].
    intros [= Heq].
    pose proof (receive_until_inv (NetLayer.app n) (inbox s) None (VStr "-1") s) as H.
    rewrite Hrun in H. destruct H as [(_ & H & _) | (H & _)]; [discriminate|].
    apply H. now rewrite Heq.
Qed.

(** X8 on the socket that a foreign datagram reaches first. *)
Lemma X8_filtering_receive_fifo_witness :
  map payload
    (filter (fun x => String.eqb (sender x) "11300") (inbox mixed_socket)) =
  "y" :: map payload
           (filter (fun x => String.eqb (sender x) "11300")
              [Datagram "z" "11300" 4]).
Proof.
  apply (proj2 (@X8_filtering_receive_fifo mixed_socket
                  {| inbox := [Datagram "z" "11300" 4]; now := 3; log := [];
                     limit := 1024; idle := (EmptyString, "-1") |} "y")
           sample_net).
  reflexivity.
Defined.

(** X9: a network layer whose app address is [-1], the value its variable
    [port] starts with, cannot receive from the application layer: on every
    socket [receive_from_app] raises UnboundLocalError at once and reads
    nothing, whatever the inbox holds. *)
Theorem X9_receive_from_app_initial_port (n : NetLayer.t) (s : socket) :
  NetLayer.app n = "-1" ->
  NetLayer.receive_from_app n s = (Raised UnboundLocalError, s).
Proof.
  intros H. unfold NetLayer.receive_from_app. rewrite H.
  destruct (inbox s); reflexivity.
Qed.

(** X9 on a socket whose first datagram comes from [-1]. *)
Lemma X9_receive_from_app_initial_port_witness :
  NetLayer.receive_from_app (NetLayer.Make "11200" "-1" "11100")
    (sample_socket [Datagram "y" "-1" 3]) =
  (Raised UnboundLocalError, sample_socket [Datagram "y" "-1" 3]).
Proof.
  apply X9_receive_from_app_initial_port. reflexivity.
Defined.

(* ================================================================== *)
(** ** The physical boundary: failures, round trip, senders *)



Lemma bits_to_string_to_bits (E : codec) (s bits : string) :
  codec_sound E ->
  string_to_bits E s = Some bits -> bits_to_string E bits = Some s.
Proof.
  intros Hsound. unfold string_to_bits, bits_to_string.
  destruct (encode E s) as [bs|] eqn:Henc; [|discriminate].
  intros [= <-]. rewrite bits_to_bytes_to_bits. now apply Hsound.
Qed.

(** X11: what [send_to_phy] puts on the wire, [receive_from_phy] reads back.
    When a [send_to_phy] of [binary] returns, it has transmitted one datagram
    to the physical layer; a network layer at whose socket a datagram with
    that payload is the next to arrive, within the timeout, gets
    [(binary, True)] from [receive_from_phy]. *)
Theorem X11_phy_round_trip (K : constants) (E : codec)
    (self receiver : NetLayer.t) (binary : string) (s s1 : socket) (n : nat) :
  codec_sound E ->
  NetLayer.send_to_phy K E self binary s = (Returned n, s1) ->
  exists bits,
    log s1 = (log s ++ [Slept (Network_FLOW_INTERVAL K);
                        Sent bits (NetLayer.phy self)])%list /\
    forall (t : Z) (sr : socket) (from : string) (at_ : Z) (rest : list datagram),
      t <> 0%Z ->
      inbox sr = Datagram bits from at_ :: rest ->
      (at_ <= now sr + t)%Z ->
      NetLayer.receive_from_phy K E receiver (Some t) sr =
      (Returned (binary, true), deliver (Datagram bits from at_) rest sr).
Proof.
  intros Hsound. unfold NetLayer.send_to_phy, bind, sleep, raise, _send.
  destruct (string_to_bits E binary) as [bits|] eqn:Hbits; [|discriminate].
  cbn [limit].
  destruct (Nat.leb (String.length bits) (limit s)); [|discriminate].
  intros [= <- <-]. exists bits. cbn [log]. split.
  - now rewrite <- app_assoc.
  - intros t sr from at_ rest Ht Hin Harr.
    rewrite (@receive_from_phy_any_sender K E receiver t sr
               (Datagram bits from at_) rest Ht Hin Harr).
    cbn [payload]. now rewrite (bits_to_string_to_bits _ Hsound Hbits).
Qed.

(** X11 for the payload [hi]. *)
Lemma X11_phy_round_trip_witness :
  exists bits,
    [Slept 1%Z; Sent "0110100001101001" "11100"] =
      ([] ++ [Slept 1%Z; Sent bits "11100"])%list /\
    forall (t : Z) (sr : socket) (from : string) (at_ : Z) (rest : list datagram),
      t <> 0%Z ->
      inbox sr = Datagram bits from at_ :: rest ->
      (at_ <= now sr + t)%Z ->
      NetLayer.receive_from_phy menu_constants ascii_codec sample_net (Some t) sr =
      (Returned ("hi", true), deliver (Datagram bits from at_) rest sr).
Proof.
  apply (@X11_phy_round_trip menu_constants ascii_codec sample_net sample_net
           "hi" (sample_socket [])
           {| inbox := []; now := 1;
              log := [Slept 1; Sent "0110100001101001" "11100"];
              limit := 1024; idle := (EmptyString, "-1") |} 16).
  - exact ascii_codec_sound.
  - reflexivity.
Defined.

(** X12: the sender of a datagram plays no part in [receive_from_phy].  On
    two sockets that differ only in the sender of the first datagram, with
    any timeout, the call has the same outcome (the same payload and flag, or
    the same exception) and leaves the same clock. *)
Theorem X12_receive_from_phy_ignores_sender (K : constants) (E : codec)
    (self : NetLayer.t) (timeout : option Z) (s : socket)
    (bits from1 from2 : string) (at_ : Z) (rest : list datagram) :
  let socket_from from :=
    {| inbox := Datagram bits from at_ :: rest; now := now s; log := log s;
       limit := limit s; idle := idle s |} in
  fst (NetLayer.receive_from_phy K E self timeout (socket_from from1)) =
  fst (NetLayer.receive_from_phy K E self timeout (socket_from from2)) /\
  now (snd (NetLayer.receive_from_phy K E self timeout (socket_from from1))) =
  now (snd (NetLayer.receive_from_phy K E self timeout (socket_from from2))).
Proof.
  cbv zeta. unfold NetLayer.receive_from_phy, bind, _receive.
  cbn [inbox now idle arrival payload sender].
  destruct (bounded _) as [t|].
  - destruct (at_ <=? now s + t)%Z; [|split; reflexivity].
    destruct (bits_to_string E bits); split; reflexivity.
  - destruct (bits_to_string E bits); split; reflexivity.
Qed.

(** X12 on a datagram sent by the physical layer or by a stranger. *)
Lemma X12_receive_from_phy_ignores_sender_witness :
  fst (NetLayer.receive_from_phy menu_constants ascii_codec sample_net None
         (sample_socket [Datagram "01100001" "11100" 1])) =
  fst (NetLayer.receive_from_phy menu_constants ascii_codec sample_net None
         (sample_socket [Datagram "01100001" "19999" 1])).
Proof.
  exact (proj1 (@X12_receive_from_phy_ignores_sender menu_constants ascii_codec
                  sample_net None (sample_socket []) "01100001" "11100" "19999"
                  1 [])).
Defined.
